(** * Verification of the continuous plate scanner of dls_barcode

    Shallow embedding of
    - [plate/slot.py]            : the [Slot] class,
    - [continuous.py]            : [capture_worker] and [scanner_worker],
    - [camera/camera_scanner.py] : [CameraScanner.kill], [_capture_worker],
                                   [_scanner_worker] and [_plate_beep].

    The repository is Python 2 code ([print x] statements in its tests,
    implicit relative imports, and [from __future__ import division] in
    [camera_scanner.py] only).  Integer [/] in a module without the
    [__future__] import is floor division.

    The plate, scanner and barcode classes ([dls_barcode.plate.Scanner],
    [Plate], [scan.GeometryScanner], [ScanResult], the barcode class) are
    not part of the sources at hand; where a property depends on them they
    are modelled from the specification, in definitions whose doc comment
    says so.  Time stamps ([time.time()]) are modelled as integers in
    milliseconds with exact arithmetic. *)

From Stdlib Require Import List String ZArith Lia Bool Arith QArith.
Import ListNotations.
Open Scope nat_scope.


(* ------------------------------------------------------------------ *)
(** ** Barcodes *)

(** Modelled from the spec: the barcode object returned by the decoder
    (its class is not among the sources).  [Slot] only uses its
    methods [data()], [is_valid()] and [is_unreadable()]; such objects are
    plain Python objects, hence truthy. *)
Record Barcode := mkBarcode {
  bc_data : string;
  bc_is_valid : bool;
  bc_is_unreadable : bool
}.

(* ------------------------------------------------------------------ *)
(** ** plate/slot.py *)

Definition EMPTY_SLOT_SYMBOL : string := "----EMPTY----".
Definition NOT_FOUND_SLOT_SYMBOL : string := "-CANT-FIND-".

(** Bounds [((x, y), radius)] and positions [(x, y)]. *)
Definition Coord : Type := (Z * Z)%type.
Definition Bounds : Type := (Coord * Z)%type.

Module Slot.

(** The class constants. *)
Definition NO_RESULT : nat := 0.
Definition EMPTY : nat := 1.
Definition UNREADABLE : nat := 2.
Definition VALID : nat := 3.

(** The instance attributes; [None] stands for Python's [None]. *)
Record Slot := mkSlot {
  _number : nat;
  _bounds : option Bounds;
  _barcode_position : option Coord;
  _barcode : option Barcode;
  _empty : bool;
  _total_frames : nat;
  _barcode_set_this_frame : bool
}.

(** [__init__] *)
Definition init (number : nat) : Slot :=
  {| _number := number; _bounds := None; _barcode_position := None;
     _barcode := None; _empty := false;
     _total_frames := 0; _barcode_set_this_frame := false |}.

Definition new_frame (s : Slot) : Slot :=
  {| _number := _number s; _bounds := _bounds s;
     _barcode_position := _barcode_position s; _barcode := _barcode s;
     _empty := _empty s;
     _total_frames := S (_total_frames s);
     _barcode_set_this_frame := false |}.

Definition number (s : Slot) : nat := _number s.
Definition bounds (s : Slot) : option Bounds := _bounds s.
Definition barcode_position (s : Slot) : option Coord := _barcode_position s.
Definition barcode_this_frame (s : Slot) : bool := _barcode_set_this_frame s.

Definition set_bounds (s : Slot) (b : option Bounds) : Slot :=
  {| _number := _number s; _bounds := b;
     _barcode_position := _barcode_position s; _barcode := _barcode s;
     _empty := _empty s; _total_frames := _total_frames s;
     _barcode_set_this_frame := _barcode_set_this_frame s |}.

Definition set_barcode_position (s : Slot) (c : option Coord) : Slot :=
  {| _number := _number s; _bounds := _bounds s;
     _barcode_position := c; _barcode := _barcode s;
     _empty := _empty s; _total_frames := _total_frames s;
     _barcode_set_this_frame := _barcode_set_this_frame s |}.

(** [self._barcode = barcode] is unconditional; the [if barcode is not
    None] guard only covers the two following assignments. *)
Definition set_barcode (s : Slot) (barcode : option Barcode) : Slot :=
  match barcode with
  | None =>
      {| _number := _number s; _bounds := _bounds s;
         _barcode_position := _barcode_position s; _barcode := None;
         _empty := _empty s; _total_frames := _total_frames s;
         _barcode_set_this_frame := _barcode_set_this_frame s |}
  | Some b =>
      {| _number := _number s; _bounds := _bounds s;
         _barcode_position := _barcode_position s; _barcode := Some b;
         _empty := false; _total_frames := _total_frames s;
         _barcode_set_this_frame := true |}
  end.

Definition set_empty (s : Slot) : Slot :=
  {| _number := _number s; _bounds := _bounds s;
     _barcode_position := _barcode_position s; _barcode := None;
     _empty := true; _total_frames := _total_frames s;
     _barcode_set_this_frame := _barcode_set_this_frame s |}.

Definition set_no_result (s : Slot) : Slot :=
  {| _number := _number s; _bounds := _bounds s;
     _barcode_position := _barcode_position s; _barcode := None;
     _empty := false; _total_frames := _total_frames s;
     _barcode_set_this_frame := _barcode_set_this_frame s |}.

(** [self._barcode and self._barcode.is_unreadable()]: a present
    barcode object is truthy. *)
Definition barcode_and (s : Slot) (p : Barcode -> bool) : bool :=
  match _barcode s with
  | Some b => p b
  | None => false
  end.

Definition state (s : Slot) : nat :=
  if _empty s then EMPTY
  else if barcode_and s bc_is_unreadable then UNREADABLE
  else if barcode_and s bc_is_valid then VALID
  else NO_RESULT.

Definition contains_barcode (s : Slot) : bool :=
  let st := state s in Nat.eqb st UNREADABLE || Nat.eqb st VALID.

Definition barcode_data (s : Slot) : string :=
  if _empty s then EMPTY_SLOT_SYMBOL
  else match _barcode s with
       | Some b => bc_data b
       | None => NOT_FOUND_SLOT_SYMBOL
       end.

(** The operations a caller can apply to a slot; a reachable slot is
    one obtained from [init] by a sequence of them. *)
Inductive op :=
| OpNewFrame
| OpSetBounds (b : option Bounds)
| OpSetBarcodePosition (c : option Coord)
| OpSetBarcode (b : option Barcode)
| OpSetEmpty
| OpSetNoResult.

Definition apply_op (s : Slot) (o : op) : Slot :=
  match o with
  | OpNewFrame => new_frame s
  | OpSetBounds b => set_bounds s b
  | OpSetBarcodePosition c => set_barcode_position s c
  | OpSetBarcode b => set_barcode s b
  | OpSetEmpty => set_empty s
  | OpSetNoResult => set_no_result s
  end.

Definition run_ops (s : Slot) (os : list op) : Slot := fold_left apply_op os s.

Definition reachable (s : Slot) : Prop :=
  exists n os, s = run_ops (init n) os.

End Slot.

(* ------------------------------------------------------------------ *)
(** ** Plates and the frame merge engine *)

Module Plate.
Import Slot.

(** Modelled from the spec: the [Plate] class (not among the sources).
    A plate is an ordered sequence of slots together with the geometry
    alignment flag [scan_ok]. *)
Record Plate := mkPlate {
  scan_ok : bool;
  slots : list Slot.Slot
}.

Definition is_valid_slot (s : Slot.Slot) : bool := Nat.eqb (state s) VALID.

Definition num_slots (p : Plate) : nat := List.length (slots p).

Definition num_valid_barcodes (p : Plate) : nat :=
  List.length (filter is_valid_slot (slots p)).

(** Modelled from the spec: "fully valid" = every slot is Valid. *)
Definition is_full_valid (p : Plate) : bool := forallb is_valid_slot (slots p).

(** Modelled from the spec (section 4.3): for every index where the
    candidate holds a Valid barcode, the remembered plate holds a Valid
    barcode with identical data at the same index. *)
Fixpoint slots_in_common (rs cs : list Slot.Slot) : bool :=
  match cs, rs with
  | [], _ => true
  | c :: cs', [] => negb (is_valid_slot c) && slots_in_common [] cs'
  | c :: cs', r :: rs' =>
      (negb (is_valid_slot c)
       || (is_valid_slot r && String.eqb (barcode_data r) (barcode_data c)))
      && slots_in_common rs' cs'
  end.

Definition has_slots_in_common (remembered candidate : Plate) : bool :=
  slots_in_common (slots remembered) (slots candidate).

(** Modelled from the spec (section 4.2): a slot holding a Valid barcode
    that was set during the current frame. *)
Definition any_new_barcodes (p : Plate) : bool :=
  existsb (fun s => barcode_this_frame s && is_valid_slot s) (slots p).

End Plate.

(** Modelled from the spec (section 6): the outcome of the decode
    capability for one slot region. *)
Inductive DecodeResult :=
| DValid (data : string)
| DUnreadable
| DEmpty
| DNoResult.

(** The data carried by an unreadable barcode (a sentinel, not raw bytes). *)
Definition UNREADABLE_DATA : string := "".

(** Modelled from the spec (section 4.2, step 4): applying a decode result
    through [set_barcode], [set_empty] or [set_no_result]. *)
Definition apply_decode (s : Slot.Slot) (r : DecodeResult) : Slot.Slot :=
  match r with
  | DValid d => Slot.set_barcode s (Some (mkBarcode d true false))
  | DUnreadable => Slot.set_barcode s (Some (mkBarcode UNREADABLE_DATA false true))
  | DEmpty => Slot.set_empty s
  | DNoResult => Slot.set_no_result s
  end.

(** The external collaborators of the scan worker (section 6 of the spec):
    the geometry alignment of a frame, the predicted region of each slot
    and the decode capability; [n_slots] is fixed by the plate type. *)
Record Capabilities (Frame : Type) := {
  n_slots : nat;
  align : Frame -> bool;
  region : Frame -> nat -> Bounds;
  decode : Frame -> Bounds -> DecodeResult
}.
Arguments n_slots {Frame} c.
Arguments align {Frame} c f.
Arguments region {Frame} c f i.
Arguments decode {Frame} c f b.

Module Scanner.
Import Plate.

Section Engine.
Context {Frame : Type} (cap : Capabilities Frame).

(** Modelled from the spec (section 4.2, steps 1-4): one slot of the
    working plate at index [i]; returns the new slot and the indices
    at which the decode capability was invoked. *)
Definition scan_slot (f : Frame) (i : nat) (s : Slot.Slot)
  : Slot.Slot * list nat :=
  let b := region cap f i in
  let s1 := Slot.set_bounds (Slot.new_frame s) (Some b) in
  if Nat.eqb (Slot.state s1) Slot.VALID then (s1, [])
  else (apply_decode s1 (decode cap f b), [i]).

Fixpoint scan_slots (f : Frame) (i : nat) (ss : list Slot.Slot)
  : list Slot.Slot * list nat :=
  match ss with
  | [] => ([], [])
  | s :: ss' =>
      let '(s', l1) := scan_slot f i s in
      let '(ss'', l2) := scan_slots f (S i) ss' in
      (s' :: ss'', l1 ++ l2)
  end.

Definition fresh_slots : list Slot.Slot := map Slot.init (seq 0 (n_slots cap)).

(** Modelled from the spec: [Scanner.ScanImage], a fresh snapshot of
    [n_slots] slots (section 3, lifecycle); a frame that fails
    alignment decodes nothing. *)
Definition ScanImage (f : Frame) : Plate * list nat :=
  if align cap f then
    let '(ss, log) := scan_slots f 0 fresh_slots in (mkPlate true ss, log)
  else (mkPlate false fresh_slots, []).

(** Modelled from the spec: [Scanner.ScanImageContinuous], the merge
    of a new frame into the previous plate (section 4.2); a frame with
    failed alignment mutates nothing (step 6).  The second component is
    [frame_contains_barcodes]: some slot was set during this frame. *)
Definition ScanImageContinuous (f : Frame) (prev : Plate)
  : Plate * bool * list nat :=
  if align cap f then
    let '(ss, log) := scan_slots f 0 (slots prev) in
    (mkPlate true ss, existsb Slot.barcode_this_frame ss, log)
  else (mkPlate false (slots prev), false, []).

End Engine.
End Scanner.

(* ------------------------------------------------------------------ *)
(** ** Audible cue *)

(** [continuous.py], line 142:
    [int(10000 * ((plate.num_slots - plate.num_valid_barcodes) / plate.num_slots)) + 37].
    Without the [__future__] import the inner [/] on two ints is Python 2
    floor division ([Z.div]); [None] is the [ZeroDivisionError]. *)
Definition continuous_frequency (num_slots num_valid : Z) : option Z :=
  if Z.eqb num_slots 0 then None
  else Some (10000 * ((num_slots - num_valid) / num_slots) + 37)%Z.

(** Truncation toward zero, Python's [int()] of a number. *)
Definition py_int (q : Q) : Z := Z.quot (Qnum q) (Zpos (Qden q)).

(** [camera_scanner.py], [_plate_beep]: with [from __future__ import
    division], [empty_fraction] is a true quotient, computed here exactly;
    [int(10000 * empty_fraction + 37)]. *)
Definition camera_frequency (num_slots num_valid : Z) : option Z :=
  if Z.eqb num_slots 0 then None
  else
    let empty_fraction := (inject_Z (num_slots - num_valid) / inject_Z num_slots)%Q in
    Some (py_int (inject_Z 10000 * empty_fraction + inject_Z 37)%Q).

(* ------------------------------------------------------------------ *)
(** ** continuous.py : scanner_worker *)

Definition SCANNED_TAG_CONTINUOUS : string := "Already Scanned".

(** [Overlay(plate, text)] of [continuous.py]. *)
Record Overlay := mkOverlay {
  ov_plate : option Plate.Plate;
  ov_text : option string
}.

Module Continuous.
Import Plate.

(** The loop variables of [scanner_worker] and the queues it writes:
    [overlay_queue], [result_queue] (the image is left out), the beeps
    played, and the slot indices at which the decode capability ran. *)
Record WorkerState := mkWorkerState {
  last_plate : option Plate;
  last_full_plate : option Plate;
  frame_contains_barcodes : bool;
  overlay_queue : list Overlay;
  result_queue : list Plate;
  beeps : list Z;
  decode_log : list nat
}.

Definition initial_state : WorkerState :=
  mkWorkerState None None false [] [] [] [].

Section Worker.
Context {Frame : Type} (cap : Capabilities Frame).

(** Lines 121-124: the plate for this frame, the new value of
    [frame_contains_barcodes], and the decode invocations. *)
Definition scan_frame (st : WorkerState) (f : Frame) : Plate * bool * list nat :=
  match last_plate st with
  | None =>
      let '(p, log) := Scanner.ScanImage cap f in
      (p, frame_contains_barcodes st, log)
  | Some lp => Scanner.ScanImageContinuous cap f lp
  end.

(** [last_full_plate and last_full_plate.has_slots_in_common(plate)];
    a [Plate] object is truthy. *)
Definition already_reported (st : WorkerState) (plate : Plate) : bool :=
  match last_full_plate st with
  | Some lfp => has_slots_in_common lfp plate
  | None => false
  end.

(** One iteration of the [while True] loop on a real frame
    (lines 112-144). *)
Definition scanner_step (st : WorkerState) (f : Frame) : WorkerState :=
  let '(plate, fcb, log) := scan_frame st f in
  let log' := decode_log st ++ log in
  if scan_ok plate then
    if already_reported st plate then
      mkWorkerState (Some plate) (last_full_plate st) fcb
        (if fcb then overlay_queue st ++ [mkOverlay None (Some SCANNED_TAG_CONTINUOUS)]
         else overlay_queue st)
        (result_queue st) (beeps st) log'
    else
      let '(results, lfp) :=
        if is_full_valid plate
        then (result_queue st ++ [plate], Some plate)
        else (result_queue st, last_full_plate st) in
      if fcb then
        let freq := match continuous_frequency (Z.of_nat (num_slots plate))
                            (Z.of_nat (num_valid_barcodes plate)) with
                    | Some fr => [fr] | None => [] end in
        mkWorkerState (Some plate) lfp fcb
          (overlay_queue st ++ [mkOverlay (Some plate) None])
          results (beeps st ++ freq) log'
      else
        mkWorkerState (Some plate) lfp fcb (overlay_queue st) results (beeps st) log'
  else
    mkWorkerState (last_plate st) (last_full_plate st) fcb
      (overlay_queue st) (result_queue st) (beeps st) log'.

(** The loop over the items taken from [task_queue]: [None] is the
    sentinel.  Returns the final state, the items left in the queue and
    whether the loop exited ([false]: blocked on an empty queue). *)
Fixpoint scanner_worker (st : WorkerState) (q : list (option Frame))
  : WorkerState * list (option Frame) * bool :=
  match q with
  | [] => (st, [], false)
  | None :: rest => (st, rest, true)
  | Some f :: rest => scanner_worker (scanner_step st f) rest
  end.

(** Frames processed one after the other. *)
Definition run_frames (st : WorkerState) (fs : list Frame) : WorkerState :=
  fold_left scanner_step fs st.

End Worker.
End Continuous.

(* ------------------------------------------------------------------ *)
(** ** camera/camera_scanner.py : the scan side *)

Module Camera.
Import Plate.

Definition SCANNED_TAG : string := "Scan Complete".
(** [NO_PUCK_TIME = 2] seconds, in milliseconds. *)
Definition NO_PUCK_TIME : Z := 2000.
Definition ALIGNMENT_ERROR : string := "No plate detected".

Inductive Color := Green | Red.

(** [PlateOverlay(plate, options)] and [TextOverlay(text, color)]. *)
Inductive CamOverlay :=
| PlateOverlay (p : Plate)
| TextOverlay (text : string) (c : Color).

(** Modelled from the spec (section 3, Scan Result): the [ScanResult]
    returned by [scan_next_frame] (class not among the sources). *)
Record ScanResult := mkScanResult {
  sr_success : bool;
  sr_plate : option Plate;
  sr_already_scanned : bool;
  sr_any_valid_barcodes : bool;
  sr_any_new_barcodes : bool;
  sr_error : string
}.

(** Modelled from the spec: the state of [GeometryScanner] (class not
    among the sources): the session's current plate snapshot and the
    remembered last reported plate (section 4.3).  The session is never
    reset automatically (section 4.4). *)
Record GeometryScanner := mkGeometryScanner {
  gs_plate : option Plate;
  gs_last_reported : option Plate
}.

Definition initial_scanner : GeometryScanner := mkGeometryScanner None None.

Section ScanSide.
Context {Frame : Type} (cap : Capabilities Frame).

(** Modelled from the spec: [GeometryScanner.scan_next_frame].  The
    frame is merged into the current snapshot (section 4.2); a failed
    alignment changes nothing and reports an error (step 6); otherwise
    the candidate is a duplicate iff it has slots in common with the
    remembered plate, and a non-duplicate candidate with some Valid
    slot becomes the remembered plate (section 4.3).  Also returns the
    slot indices at which the decode capability ran. *)
Definition scan_next_frame (gs : GeometryScanner) (f : Frame)
  : ScanResult * GeometryScanner * list nat :=
  let '(plate, log) :=
    match gs_plate gs with
    | None => Scanner.ScanImage cap f
    | Some p => let '(p', _, log) := Scanner.ScanImageContinuous cap f p in (p', log)
    end in
  if scan_ok plate then
    let dup := match gs_last_reported gs with
               | Some r => has_slots_in_common r plate
               | None => false
               end in
    let any_valid := negb (Nat.eqb (num_valid_barcodes plate) 0) in
    let remembered :=
      if dup then gs_last_reported gs
      else if any_valid then Some plate else gs_last_reported gs in
    (mkScanResult true (Some plate) dup any_valid (any_new_barcodes plate) "",
     mkGeometryScanner (Some plate) remembered, log)
  else
    (mkScanResult false None false false false ALIGNMENT_ERROR, gs, []).

(** The state of [_scanner_worker] and the queues it writes. *)
Record CamState := mkCamState {
  scanner : GeometryScanner;
  last_plate_time : Z;
  overlay_queue : list CamOverlay;
  result_queue : list Plate;
  beeps : list Z;
  decode_log : list nat
}.

(** [_plate_beep(plate, options)]. *)
Definition plate_beep (scan_beep : bool) (p : Plate) : list Z :=
  if scan_beep then
    match camera_frequency (Z.of_nat (num_slots p)) (Z.of_nat (num_valid_barcodes p)) with
    | Some fr => [fr]
    | None => []
    end
  else [].

(** One iteration of the loop on a real frame (lines 147-178); [now]
    is the value of [time.time()] in this iteration. *)
Definition camera_scanner_step (scan_beep : bool) (st : CamState) (f : Frame) (now : Z)
  : CamState :=
  let '(sr, gs', log) := scan_next_frame (scanner st) f in
  let log' := decode_log st ++ log in
  if sr_success sr then
    match sr_plate sr with
    | Some plate =>
        let '(ovs, bps) :=
          if sr_already_scanned sr then
            (overlay_queue st ++ [TextOverlay SCANNED_TAG Green], beeps st)
          else if sr_any_valid_barcodes sr then
            (overlay_queue st ++ [PlateOverlay plate], beeps st ++ plate_beep scan_beep plate)
          else (overlay_queue st, beeps st) in
        let results :=
          if sr_any_new_barcodes sr then result_queue st ++ [plate]
          else result_queue st in
        mkCamState gs' now ovs results bps log'
    | None => mkCamState gs' now (overlay_queue st) (result_queue st) (beeps st) log'
    end
  else
    let ovs :=
      if Z.ltb NO_PUCK_TIME (now - last_plate_time st)
      then overlay_queue st ++ [TextOverlay (sr_error sr) Red]
      else overlay_queue st in
    mkCamState gs' (last_plate_time st) ovs (result_queue st) (beeps st) log'.

(** Frames processed one after the other, each with its clock reading. *)
Fixpoint run_camera (scan_beep : bool) (st : CamState) (fs : list (Frame * Z)) : CamState :=
  match fs with
  | [] => st
  | (f, now) :: rest => run_camera scan_beep (camera_scanner_step scan_beep st f now) rest
  end.

(** The [while True] loop over the items of [task_queue]; [clock k] is
    [time.time()] when the [k]-th frame is processed.  Returns the final
    state, the items left in the queue, and whether the loop exited. *)
Fixpoint camera_scanner_worker (scan_beep : bool) (clock : nat -> Z) (k : nat)
  (st : CamState) (q : list (option Frame)) : CamState * list (option Frame) * bool :=
  match q with
  | [] => (st, [], false)
  | None :: rest => (st, rest, true)
  | Some f :: rest =>
      camera_scanner_worker scan_beep clock (S k)
        (camera_scanner_step scan_beep st f (clock k)) rest
  end.

End ScanSide.
End Camera.

(* ------------------------------------------------------------------ *)
(** ** The capture side and the termination protocol *)

Module Capture.

Definition Q_LIMIT : nat := 1.
(** [INTERVAL = 1.0 / MAX_SAMPLE_RATE] with [MAX_SAMPLE_RATE = 10.0]:
    100 milliseconds. *)
Definition INTERVAL : Z := 100.

Section CaptureSide.
Context {Frame : Type}.

(** What one iteration of the capture loop observes: whether
    [kill_queue.empty()], the frame [cap.read()] returns ([None] when
    the read fails), [task_queue.qsize()], the clock when the enqueue
    condition is tested and when [last_time] is reset, and whether the
    exit key was pressed. *)
Record CapInput := mkCapInput {
  kill_empty : bool;
  read : option Frame;
  qsize : nat;
  now : Z;
  after_put : Z;
  key_exit : bool
}.

(** One frame put on the queue: the clock reading when it was
    accepted, the queue size and the time elapsed that were observed. *)
Record Enqueue := mkEnqueue {
  enq_time : Z;
  enq_qsize : nat;
  enq_elapsed : Z
}.

Record CapState := mkCapState {
  last_time : Z;
  task_queue : list (option Frame);
  enqueues : list Enqueue
}.

Inductive Outcome :=
| Running (st : CapState)   (** still looping when the inputs run out *)
| Finished (st : CapState)  (** left the loop and cleaned up *)
| Crashed (st : CapState).  (** [frame.copy()] on a failed read *)

(** Lines 92-96 of [camera_scanner.py] (67-70 of [continuous.py]):
    [None] is an [AttributeError] on [None.copy()]. *)
Definition try_enqueue (st : CapState) (i : CapInput) : option CapState :=
  if Nat.ltb (qsize i) Q_LIMIT && Z.leb INTERVAL (now i - last_time st) then
    match read i with
    | Some fr =>
        Some (mkCapState (after_put i) (task_queue st ++ [Some fr])
                (enqueues st ++ [mkEnqueue (now i) (qsize i) (now i - last_time st)]))
    | None => None
    end
  else Some st.

Definition put_sentinel (st : CapState) : CapState :=
  mkCapState (last_time st) (task_queue st ++ [None]) (enqueues st).

(** [_capture_worker] of [camera_scanner.py] from its [while] loop on:
    the loop runs while [kill_queue.empty()]; leaving it by the exit key
    or by the kill signal reaches [task_queue.put(None)] (line 114). *)
Fixpoint capture_worker (st : CapState) (ins : list CapInput) : Outcome :=
  match ins with
  | [] => Running st
  | i :: rest =>
      if kill_empty i then
        match try_enqueue st i with
        | None => Crashed st
        | Some st' =>
            if key_exit i then Finished (put_sentinel st')
            else capture_worker st' rest
        end
      else Finished (put_sentinel st)
  end.

(** [capture_worker] of [continuous.py]: [while True], and the exit
    key puts the sentinel before [break] (lines 84-86). *)
Fixpoint continuous_capture_worker (st : CapState) (ins : list CapInput) : Outcome :=
  match ins with
  | [] => Running st
  | i :: rest =>
      match try_enqueue st i with
      | None => Crashed st
      | Some st' =>
          if key_exit i then Finished (put_sentinel st')
          else continuous_capture_worker st' rest
      end
  end.

(** [CameraScanner.kill]: the kill queue and the task queue each get
    a [None]. *)
Definition kill (kill_queue task_queue : list (option Frame))
  : list (option Frame) * list (option Frame) :=
  (kill_queue ++ [None], task_queue ++ [None]).

(** The worker starts with [last_time = time.time()] and no queued item. *)
Definition start (t0 : Z) : CapState := mkCapState t0 [] [].

(** The clock is monotonic along the inputs from the start time on. *)
Fixpoint clock_monotone (t : Z) (ins : list CapInput) : Prop :=
  match ins with
  | [] => True
  | i :: rest => (t <= now i)%Z /\ (now i <= after_put i)%Z /\ clock_monotone (after_put i) rest
  end.

Definition state_of (o : Outcome) : CapState :=
  match o with Running s | Finished s | Crashed s => s end.

End CaptureSide.

(** The number of time stamps in the window [[a, a + T)]. *)
Fixpoint count_in_window (a T : Z) (ts : list Z) : nat :=
  match ts with
  | [] => 0
  | t :: rest =>
      (if Z.leb a t && Z.ltb t (a + T) then 1 else 0) + count_in_window a T rest
  end.

End Capture.

(* ------------------------------------------------------------------ *)
(** ** Rendering on the capture side *)

Module Render.

(** What [Overlay.draw_on_image] of [continuous.py] draws on a frame. *)
Inductive DrawCmd :=
| DrawPlate (p : Plate.Plate)    (** [self._plate.draw_plate(cv_image, CvImage.BLUE)] *)
| DrawPins (p : Plate.Plate)     (** [self._plate.draw_pins(cv_image)] *)
| DrawText (text : string).      (** [cv_image.draw_text(text, ...)] *)

(** ["Press '{}' to exit scanning mode".format(EXIT_KEY)] with
    [EXIT_KEY = 'q']. *)
Definition exit_msg : string := "Press 'q' to exit scanning mode".

(** [Overlay(plate, text, lifetime=1)] is created with
    [self._start_time = time.time()]; the default lifetime of one second
    is 1000 ms.  [draw_on_image] at clock [now] (lines 161-178): the plate
    and the status text only while the overlay has not expired, the text
    drawn being [SCANNED_TAG] whatever [self._text] holds; then the exit
    message, always. *)
Definition DEFAULT_LIFETIME : Z := 1000.

Definition draw_on_image (o : Overlay) (start_time lifetime now : Z) : list DrawCmd :=
  (if Z.ltb (now - start_time) lifetime then
     match ov_plate o with Some p => [DrawPlate p; DrawPins p] | None => [] end ++
     match ov_text o with Some _ => [DrawText SCANNED_TAG_CONTINUOUS] | None => [] end
   else []) ++ [DrawText exit_msg].

(** [while not overlay_queue.empty(): latest_overlay = overlay_queue.get(False)]
    (lines 73-74 of [continuous.py], 99-100 of [camera_scanner.py]): the
    new [latest_overlay]; the queue is left empty. *)
Fixpoint drain_overlays {A : Type} (latest : A) (q : list A) : A :=
  match q with
  | [] => latest
  | o :: rest => drain_overlays o rest
  end.

End Render.

(* ================================================================== *)
(** * Properties *)

(* ------------------------------------------------------------------ *)
(** ** Slot *)

Module SlotFacts.
Import Slot.

Example state_fresh : state (init 4) = NO_RESULT.
Proof. reflexivity. Qed.

Example state_empty_with_barcode :
  state (mkSlot 0 None None (Some (mkBarcode "A" true false)) true 3 false) = EMPTY.
Proof. reflexivity. Qed.

(** In a slot reached through the class's methods, the empty flag and a
    stored barcode never coexist: [set_empty] clears the barcode and
    [set_barcode] with a barcode clears the flag. *)
Lemma reachable_empty_no_barcode (s : Slot) :
  reachable s -> _empty s = true -> _barcode s = None.
Proof.
  intros [n [os ->]]. unfold run_ops.
  assert (Hinv : forall s0, (_empty s0 = true -> _barcode s0 = None) ->
            _empty (fold_left apply_op os s0) = true ->
            _barcode (fold_left apply_op os s0) = None).
  { induction os as [| o os IH]; intros s0 H0; simpl; [exact H0 |].
    apply IH. destruct o as [| | | [b|] | |]; simpl; auto; discriminate. }
  apply Hinv. simpl. discriminate.
Qed.

(** C4: [state()] is a pure read of the empty flag and the stored
    barcode, with precedence Empty > Unreadable (barcode present and
    unreadable) > Valid (barcode present and valid) > NoResult; a set
    empty flag yields Empty whatever barcode is stored. *)
Theorem state_precedence :
  forall s : Slot,
    (_empty s = true -> state s = EMPTY) /\
    (forall b, _empty s = false -> _barcode s = Some b ->
       bc_is_unreadable b = true -> state s = UNREADABLE) /\
    (forall b, _empty s = false -> _barcode s = Some b ->
       bc_is_unreadable b = false -> bc_is_valid b = true -> state s = VALID) /\
    (_empty s = false ->
       (forall b, _barcode s = Some b -> bc_is_unreadable b = false /\ bc_is_valid b = false) ->
       state s = NO_RESULT) /\
    (forall s' : Slot, _empty s' = _empty s -> _barcode s' = _barcode s -> state s' = state s).
Proof.
  intros [n bd pos bc e tf bf]; unfold state, barcode_and; simpl.
  repeat split.
  - intros ->. reflexivity.
  - intros b -> -> ->. reflexivity.
  - intros b -> -> -> ->. reflexivity.
  - intros -> H. destruct bc as [b|]; [| reflexivity].
    destruct (H b eq_refl) as [-> ->]. reflexivity.
  - intros [n' bd' pos' bc' e' tf' bf']; simpl. intros -> ->. reflexivity.
Qed.

(** C3 (as stated, refuted): [set_barcode(None)] does not always leave
    [state()] unchanged; a slot holding a valid barcode drops to
    NoResult. *)
Lemma set_barcode_none_changes_state :
  ~ (forall s : Slot, state (set_barcode s None) = state s).
Proof.
  intros H.
  specialize (H (set_barcode (init 0) (Some (mkBarcode "A" true false)))).
  discriminate H.
Qed.

(** C3 (amended): [set_barcode(None)] clears the stored barcode and
    leaves the empty flag and the per-frame flag as they were; [state()]
    afterwards is Empty if the empty flag is set and NoResult otherwise,
    so it is unchanged exactly when it was already Empty or NoResult. *)
Theorem set_barcode_none_effect :
  forall s : Slot,
    _barcode (set_barcode s None) = None /\
    _empty (set_barcode s None) = _empty s /\
    barcode_this_frame (set_barcode s None) = barcode_this_frame s /\
    state (set_barcode s None) = (if _empty s then EMPTY else NO_RESULT) /\
    (state (set_barcode s None) = state s <->
       state s = EMPTY \/ state s = NO_RESULT).
Proof.
  intros [n bd pos bc e tf bf]; unfold state, barcode_and; simpl.
  repeat split.
  - destruct e; intros H; [left | right]; congruence.
  - destruct e; [intros _; reflexivity |].
    intros [H | H]; [| congruence].
    destruct bc as [b|]; [| discriminate].
    destruct (bc_is_unreadable b), (bc_is_valid b); discriminate.
Qed.

(** C8: [new_frame()] clears the per-frame flag, increments the frame
    counter and leaves number, bounds, barcode position, barcode, empty
    flag and hence [state()] unchanged. *)
Theorem new_frame_effect :
  forall s : Slot,
    barcode_this_frame (new_frame s) = false /\
    _total_frames (new_frame s) = S (_total_frames s) /\
    number (new_frame s) = number s /\
    bounds (new_frame s) = bounds s /\
    barcode_position (new_frame s) = barcode_position s /\
    _barcode (new_frame s) = _barcode s /\
    _empty (new_frame s) = _empty s /\
    state (new_frame s) = state s.
Proof. intros s. repeat split. Qed.

(** C10: [barcode_data()] always returns a string: the empty symbol
    when the empty flag is set (whatever barcode is stored), the stored
    barcode's data when a barcode is stored and the flag is clear, and
    the not-found symbol otherwise. *)
Theorem barcode_data_cases :
  forall s : Slot,
    (_empty s = true -> barcode_data s = EMPTY_SLOT_SYMBOL) /\
    (forall b, _empty s = false -> _barcode s = Some b -> barcode_data s = bc_data b) /\
    (_empty s = false -> _barcode s = None -> barcode_data s = NOT_FOUND_SLOT_SYMBOL) /\
    (exists str : string, barcode_data s = str /\
       (str = EMPTY_SLOT_SYMBOL \/ str = NOT_FOUND_SLOT_SYMBOL \/
        exists b, _barcode s = Some b /\ str = bc_data b)).
Proof.
  intros [n bd pos bc e tf bf]; unfold barcode_data; simpl.
  repeat split.
  - intros ->. reflexivity.
  - intros b -> ->. reflexivity.
  - intros -> ->. reflexivity.
  - destruct e.
    + eexists; split; [reflexivity | left; reflexivity].
    + destruct bc as [b|].
      * eexists; split; [reflexivity | right; right; exists b; split; reflexivity].
      * eexists; split; [reflexivity | right; left; reflexivity].
Qed.

End SlotFacts.

(* ------------------------------------------------------------------ *)
(** ** The two beep frequencies *)

Module BeepFacts.

(** Under Python 2 floor division the [continuous.py] frequency is 37 as
    soon as one slot is valid. *)
Lemma continuous_frequency_collapses (n v : Z) :
  (0 < v <= n)%Z -> continuous_frequency n v = Some 37%Z.
Proof.
  intros H. unfold continuous_frequency.
  destruct (Z.eqb_spec n 0) as [E | _]; [lia |].
  rewrite (Z.div_small (n - v) n) by lia. reflexivity.
Qed.

Lemma continuous_frequency_collapses_witness :
  (0 < 8 <= 16)%Z /\ continuous_frequency 16 8 = Some 37%Z.
Proof. split; [lia | apply continuous_frequency_collapses; lia]. Defined.

(** C9: at a plate of 16 slots with 8 valid ones, [continuous.py] beeps
    at 37 Hz and [camera_scanner.py] at 5037 Hz (the latter value is
    exact in floating point too: 8/16 = 0.5). *)
Theorem beep_frequencies_differ :
  continuous_frequency 16 8 = Some 37%Z /\ camera_frequency 16 8 = Some 5037%Z.
Proof. split; reflexivity. Qed.

End BeepFacts.

(* ------------------------------------------------------------------ *)
(** ** The merge engine keeps Valid slots *)

Module EngineFacts.
Import Slot Plate Scanner.

Section Facts.
Context {Frame : Type} (cap : Capabilities Frame).

Lemma scan_slot_valid (f : Frame) (i : nat) (s : Slot.Slot) :
  state s = VALID ->
  exists s', scan_slot cap f i s = (s', []) /\ state s' = VALID /\
             _barcode s' = _barcode s /\ _empty s' = _empty s /\
             barcode_data s' = barcode_data s /\ barcode_this_frame s' = false.
Proof.
  intros H. unfold scan_slot.
  assert (E : state (set_bounds (new_frame s) (Some (region cap f i))) = state s)
    by reflexivity.
  rewrite E, H. simpl.
  eexists; repeat split; [exact H].
Qed.

Lemma scan_slots_log_ge (f : Frame) (ss : list Slot.Slot) :
  forall k ss' log, scan_slots cap f k ss = (ss', log) -> forall j, In j log -> k <= j.
Proof.
  induction ss as [| s ss IH]; simpl; intros k ss' log E j Hj.
  - inversion E; subst. destruct Hj.
  - destruct (scan_slot cap f k s) as [s' l1] eqn:E1.
    destruct (scan_slots cap f (S k) ss) as [ss'' l2] eqn:E2.
    inversion E; subst. apply in_app_or in Hj as [Hj | Hj].
    + unfold scan_slot in E1.
      destruct (Nat.eqb _ VALID); inversion E1; subst;
        [destruct Hj | destruct Hj as [-> | []]; lia].
    + specialize (IH _ _ _ E2 j Hj). lia.
Qed.

Lemma scan_slots_length (f : Frame) (ss : list Slot.Slot) :
  forall k ss' log, scan_slots cap f k ss = (ss', log) -> List.length ss' = List.length ss.
Proof.
  induction ss as [| s ss IH]; simpl; intros k ss' log E.
  - inversion E; reflexivity.
  - destruct (scan_slot cap f k s) as [s' l1].
    destruct (scan_slots cap f (S k) ss) as [ss'' l2] eqn:E2.
    inversion E; subst. simpl. f_equal. eapply IH; eauto.
Qed.

(** A Valid slot at position [i] is not decoded, stays Valid and keeps
    its barcode; its per-frame flag is clear. *)
Lemma scan_slots_valid (f : Frame) (ss : list Slot.Slot) :
  forall k i s ss' log,
    scan_slots cap f k ss = (ss', log) ->
    nth_error ss i = Some s -> state s = VALID ->
    ~ In (k + i) log /\
    exists s', nth_error ss' i = Some s' /\ state s' = VALID /\
               _barcode s' = _barcode s /\ barcode_data s' = barcode_data s /\
               barcode_this_frame s' = false.
Proof.
  induction ss as [| s0 ss IH]; simpl; intros k i s ss' log E Hn Hv.
  - destruct i; discriminate.
  - destruct (scan_slot cap f k s0) as [s0' l1] eqn:E1.
    destruct (scan_slots cap f (S k) ss) as [ss'' l2] eqn:E2.
    inversion E; subst ss' log. destruct i as [| i].
    + inversion Hn; subst s0.
      destruct (scan_slot_valid f k s Hv) as [s' [E' [V [B [_ [D T]]]]]].
      rewrite E1 in E'. inversion E'; subst s0' l1. simpl.
      split.
      * intros Hin. apply (scan_slots_log_ge f ss (S k) _ _ E2) in Hin. lia.
      * exists s'. auto.
    + destruct (IH (S k) i s _ _ E2 Hn Hv) as [Hnot Hex].
      split; [| exact Hex].
      intros Hin. apply in_app_or in Hin as [Hin | Hin].
      * unfold scan_slot in E1.
        destruct (Nat.eqb _ VALID); inversion E1; subst;
          [destruct Hin | destruct Hin as [Hk | []]; lia].
      * apply Hnot. replace (S k + i) with (k + S i) by lia. exact Hin.
Qed.

End Facts.
End EngineFacts.

Module ContinuousFacts.
Import Slot Plate Scanner Continuous.

Definition slot_at (o : option Plate) (i : nat) : option Slot.Slot :=
  match o with
  | Some p => nth_error (slots p) i
  | None => None
  end.

Section Facts.
Context {Frame : Type} (cap : Capabilities Frame).

(** How one iteration updates the remembered state and the queues. *)
Lemma scanner_step_fields (st : WorkerState) (f : Frame) plate fcb log :
  scan_frame cap st f = (plate, fcb, log) ->
  let st' := scanner_step cap st f in
  decode_log st' = decode_log st ++ log /\
  last_plate st' = (if scan_ok plate then Some plate else last_plate st) /\
  last_full_plate st' =
    (if scan_ok plate && negb (already_reported st plate) && is_full_valid plate
     then Some plate else last_full_plate st) /\
  result_queue st' =
    (if scan_ok plate && negb (already_reported st plate) && is_full_valid plate
     then result_queue st ++ [plate] else result_queue st).
Proof.
  intros E. unfold scanner_step. rewrite E.
  destruct (scan_ok plate), (already_reported st plate), (is_full_valid plate), fcb;
    simpl; repeat split.
Qed.

Lemma scanner_step_keeps_valid (st : WorkerState) (f : Frame) (i : nat) (s : Slot.Slot) :
  slot_at (last_plate st) i = Some s -> state s = VALID ->
  exists new s', decode_log (scanner_step cap st f) = decode_log st ++ new /\
    ~ In i new /\
    slot_at (last_plate (scanner_step cap st f)) i = Some s' /\
    state s' = VALID /\ _barcode s' = _barcode s.
Proof.
  intros Hs Hv.
  destruct (last_plate st) as [p|] eqn:Hlp; [| discriminate]. simpl in Hs.
  destruct (scan_frame cap st f) as [[plate fcb] log] eqn:E.
  destruct (scanner_step_fields st f plate fcb log E) as [Hlog [Hlast _]].
  unfold scan_frame in E. rewrite Hlp in E.
  unfold ScanImageContinuous in E.
  destruct (align cap f).
  - destruct (scan_slots cap f 0 (slots p)) as [ss l] eqn:Es.
    inversion E; subst plate fcb log.
    destruct (EngineFacts.scan_slots_valid cap f (slots p) 0 i s ss l Es Hs Hv)
      as [Hnot [s' [Hn' [V' [B' _]]]]].
    exists l, s'. rewrite Hlog, Hlast. simpl. auto.
  - inversion E; subst plate fcb log.
    exists [], s. rewrite Hlog, Hlast, Hlp. simpl. auto.
Qed.

(** C1: once the slot at index [i] of the remembered plate is Valid,
    no later frame invokes the decode capability at [i], and the slot
    stays Valid with the same stored barcode, for any number of
    further frames. *)
Theorem valid_slot_never_decoded_again (st : WorkerState) (i : nat) (s : Slot.Slot)
  (fs : list Frame) :
  slot_at (last_plate st) i = Some s -> state s = VALID ->
  exists new s',
    decode_log (run_frames cap st fs) = decode_log st ++ new /\ ~ In i new /\
    slot_at (last_plate (run_frames cap st fs)) i = Some s' /\
    state s' = VALID /\ _barcode s' = _barcode s.
Proof.
  unfold run_frames. revert st s.
  induction fs as [| f fs IH]; simpl; intros st s Hs Hv.
  - exists [], s. rewrite app_nil_r. auto.
  - destruct (scanner_step_keeps_valid st f i s Hs Hv)
      as [new1 [s1 [Hl1 [Hn1 [Hs1 [Hv1 Hb1]]]]]].
    destruct (IH (scanner_step cap st f) s1 Hs1 Hv1)
      as [new2 [s2 [Hl2 [Hn2 [Hs2 [Hv2 Hb2]]]]]].
    exists (new1 ++ new2), s2. rewrite Hl2, Hl1, app_assoc.
    repeat split; auto.
    + intros Hin. apply in_app_or in Hin as [H | H]; auto.
    + congruence.
Qed.

End Facts.
End ContinuousFacts.

Module CameraFacts.
Import Slot Plate Scanner Camera.

(** Every Valid slot of [r] is Valid with the same data in [p]. *)
Definition valid_subsumed (r p : Plate) : Prop :=
  forall i sr, nth_error (slots r) i = Some sr -> is_valid_slot sr = true ->
    exists sp, nth_error (slots p) i = Some sp /\ is_valid_slot sp = true /\
               barcode_data sp = barcode_data sr.

(** The remembered plate is subsumed by the session's current plate. *)
Definition scanner_inv (gs : GeometryScanner) : Prop :=
  match gs_last_reported gs with
  | None => True
  | Some r => exists p, gs_plate gs = Some p /\ valid_subsumed r p
  end.

Lemma valid_subsumed_refl (p : Plate) : valid_subsumed p p.
Proof. intros i s H V. exists s. auto. Qed.

Lemma valid_subsumed_trans (a b c : Plate) :
  valid_subsumed a b -> valid_subsumed b c -> valid_subsumed a c.
Proof.
  intros Hab Hbc i sa Ha Va.
  destruct (Hab i sa Ha Va) as [sb [Hb [Vb Db]]].
  destruct (Hbc i sb Hb Vb) as [sc [Hc [Vc Dc]]].
  exists sc. split; [exact Hc | split; [exact Vc | congruence]].
Qed.

Lemma slots_in_common_nth (rs cs : list Slot.Slot) :
  slots_in_common rs cs = true ->
  forall j c, nth_error cs j = Some c -> is_valid_slot c = true ->
    exists r, nth_error rs j = Some r /\ is_valid_slot r = true /\
              barcode_data r = barcode_data c.
Proof.
  revert rs. induction cs as [| c0 cs IH]; intros rs H j c Hj Vc.
  - destruct j; discriminate.
  - destruct rs as [| r0 rs]; simpl in H.
    + apply andb_true_iff in H as [H1 H2].
      destruct j as [| j].
      * inversion Hj; subst. rewrite Vc in H1. discriminate.
      * destruct (IH [] H2 j c Hj Vc) as [r [Hr _]]. destruct j; discriminate.
    + apply andb_true_iff in H as [H1 H2].
      destruct j as [| j].
      * inversion Hj; subst. rewrite Vc in H1. simpl in H1.
        apply andb_true_iff in H1 as [V E]. apply String.eqb_eq in E.
        exists r0. auto.
      * exact (IH rs H2 j c Hj Vc).
Qed.

Section Facts.
Context {Frame : Type} (cap : Capabilities Frame).

Lemma merge_subsumes (f : Frame) (p : Plate) ss log :
  scan_slots cap f 0 (slots p) = (ss, log) ->
  valid_subsumed p (mkPlate true ss) /\
  (forall j s, nth_error (slots p) j = Some s -> is_valid_slot s = true ->
     exists s', nth_error ss j = Some s' /\ barcode_this_frame s' = false).
Proof.
  intros E. split.
  - intros j s Hj Vs. apply Nat.eqb_eq in Vs.
    destruct (EngineFacts.scan_slots_valid cap f (slots p) 0 j s ss log E Hj Vs)
      as [_ [s' [H' [V' [_ [D' _]]]]]].
    exists s'. simpl. unfold is_valid_slot. rewrite V'. auto.
  - intros j s Hj Vs. apply Nat.eqb_eq in Vs.
    destruct (EngineFacts.scan_slots_valid cap f (slots p) 0 j s ss log E Hj Vs)
      as [_ [s' [H' [_ [_ [_ T']]]]]].
    eauto.
Qed.

(** A duplicate candidate has no newly set Valid slot. *)
Lemma duplicate_has_no_new_barcodes (gs : GeometryScanner) (f : Frame) sr gs' log :
  scanner_inv gs ->
  scan_next_frame cap gs f = (sr, gs', log) ->
  sr_already_scanned sr = true -> sr_any_new_barcodes sr = false.
Proof.
  intros Hinv E Hdup. unfold scan_next_frame in E. unfold scanner_inv in Hinv.
  destruct (gs_plate gs) as [p|] eqn:Hp.
  - destruct (ScanImageContinuous cap f p) as [[p' fcb] l] eqn:Ec.
    unfold ScanImageContinuous in Ec.
    destruct (align cap f) eqn:Ha.
    + destruct (scan_slots cap f 0 (slots p)) as [ss l0] eqn:Es.
      inversion Ec; subst p' fcb l. simpl in E.
      destruct (gs_last_reported gs) as [r|] eqn:Hr.
      * inversion E; subst sr. simpl in Hdup |- *.
        destruct Hinv as [p0 [Hp0 Hsub]]. inversion Hp0; subst p0.
        destruct (merge_subsumes f p ss l0 Es) as [_ Hflag].
        unfold any_new_barcodes. simpl.
        apply Bool.not_true_is_false. intros Hex.
        apply existsb_exists in Hex as [c [Hin Hc]].
        apply andb_true_iff in Hc as [Tc Vc].
        apply In_nth_error in Hin as [j Hj].
        destruct (slots_in_common_nth _ _ Hdup j c Hj Vc) as [rj [Hrj [Vrj _]]].
        destruct (Hsub j rj Hrj Vrj) as [pj [Hpj [Vpj _]]].
        destruct (Hflag j pj Hpj Vpj) as [c' [Hc' Tc']].
        rewrite Hj in Hc'. inversion Hc'; subst c'. congruence.
      * inversion E; subst sr. simpl in Hdup. discriminate.
    + inversion Ec; subst. simpl in E. inversion E; subst sr. discriminate.
  - destruct (gs_last_reported gs) as [r|] eqn:Hr.
    + destruct Hinv as [p0 [Hp0 _]]. discriminate.
    + destruct (ScanImage cap f) as [p' l] eqn:Ei.
      destruct (scan_ok p'); inversion E; subst sr; simpl in Hdup; discriminate.
Qed.

Lemma scan_next_frame_inv (gs : GeometryScanner) (f : Frame) sr gs' log :
  scanner_inv gs -> scan_next_frame cap gs f = (sr, gs', log) -> scanner_inv gs'.
Proof.
  intros Hinv E. unfold scan_next_frame in E.
  destruct (gs_plate gs) as [p|] eqn:Hp.
  - destruct (ScanImageContinuous cap f p) as [[p' fcb] l] eqn:Ec.
    unfold ScanImageContinuous in Ec.
    destruct (align cap f) eqn:Ha.
    + destruct (scan_slots cap f 0 (slots p)) as [ss l0] eqn:Es.
      inversion Ec; subst p' fcb l. simpl in E.
      destruct (merge_subsumes f p ss l0 Es) as [Hsub _].
      unfold scanner_inv in *. rewrite Hp in Hinv.
      destruct (gs_last_reported gs) as [r|] eqn:Hr.
      * destruct Hinv as [p0 [Hp0 Hr0]]. inversion Hp0; subst p0.
        destruct (has_slots_in_common r (mkPlate true ss));
          [| destruct (negb _)]; inversion E; subst gs'; simpl;
          eexists; (split; [reflexivity |]);
          solve [eapply valid_subsumed_trans; eauto | apply valid_subsumed_refl].
      * destruct (negb _); inversion E; subst gs'; simpl; [| exact I].
        eexists; split; [reflexivity | apply valid_subsumed_refl].
    + inversion Ec; subst. simpl in E. inversion E; subst. exact Hinv.
  - unfold scanner_inv in *.
    destruct (gs_last_reported gs) as [r|] eqn:Hr.
    + destruct Hinv as [p0 [Hp0 _]]. rewrite Hp in Hp0. discriminate.
    + destruct (ScanImage cap f) as [p' l] eqn:Ei.
      destruct (scan_ok p'); simpl in E.
      * destruct (negb _); inversion E; subst gs'; simpl; [| exact I].
        eexists; split; [reflexivity | apply valid_subsumed_refl].
      * inversion E; subst. rewrite Hr. exact I.
Qed.

End Facts.
End CameraFacts.

(* ------------------------------------------------------------------ *)
(** ** Per-frame effects of the two scan workers *)

Module WorkerFacts.
Import Plate Scanner.

Definition initial_cam (t0 : Z) : Camera.CamState :=
  Camera.mkCamState Camera.initial_scanner t0 [] [] [] [].

Lemma scan_next_frame_failure {Frame : Type} (cap : Capabilities Frame)
  (gs : Camera.GeometryScanner) (f : Frame) sr gs' log :
  Camera.scan_next_frame cap gs f = (sr, gs', log) ->
  Camera.sr_success sr = false -> gs' = gs /\ log = [].
Proof.
  unfold Camera.scan_next_frame. intros E Hs.
  destruct (match Camera.gs_plate gs with
            | Some p => _ | None => _ end) as [plate l].
  destruct (scan_ok plate); inversion E; subst; [discriminate | auto].
Qed.

Lemma camera_step_inv {Frame : Type} (cap : Capabilities Frame) (b : bool)
  (st : Camera.CamState) (f : Frame) (now : Z) :
  CameraFacts.scanner_inv (Camera.scanner st) ->
  CameraFacts.scanner_inv (Camera.scanner (Camera.camera_scanner_step cap b st f now)).
Proof.
  intros Hinv. unfold Camera.camera_scanner_step.
  destruct (Camera.scan_next_frame cap (Camera.scanner st) f) as [[sr gs'] log] eqn:E.
  pose proof (CameraFacts.scan_next_frame_inv cap _ f sr gs' log Hinv E) as H'.
  destruct (Camera.sr_success sr); [destruct (Camera.sr_plate sr) |];
    [destruct (Camera.sr_already_scanned sr), (Camera.sr_any_valid_barcodes sr),
       (Camera.sr_any_new_barcodes sr) | |]; exact H'.
Qed.

Lemma run_camera_inv {Frame : Type} (cap : Capabilities Frame) (b : bool)
  (fs : list (Frame * Z)) :
  forall st, CameraFacts.scanner_inv (Camera.scanner st) ->
  CameraFacts.scanner_inv (Camera.scanner (Camera.run_camera cap b st fs)).
Proof.
  induction fs as [| [f now] fs IH]; simpl; intros st H; auto.
  apply IH. apply camera_step_inv. exact H.
Qed.

(** C2: a frame whose aligned plate is a duplicate of the last reported
    plate puts nothing on the result queue and plays no beep; the only
    output is the "already scanned" text overlay.  First [continuous.py]
    (for any worker state), then [camera_scanner.py] (for any session
    started from scratch, after any sequence of frames). *)
Theorem duplicate_frame_not_reported :
  (forall (Frame : Type) (cap : Capabilities Frame) (st : Continuous.WorkerState)
     (f : Frame) plate fcb log,
     Continuous.scan_frame cap st f = (plate, fcb, log) ->
     scan_ok plate = true -> Continuous.already_reported st plate = true ->
     let st' := Continuous.scanner_step cap st f in
     Continuous.result_queue st' = Continuous.result_queue st /\
     Continuous.last_full_plate st' = Continuous.last_full_plate st /\
     Continuous.beeps st' = Continuous.beeps st /\
     (Continuous.overlay_queue st' = Continuous.overlay_queue st \/
      Continuous.overlay_queue st' =
        Continuous.overlay_queue st ++ [mkOverlay None (Some SCANNED_TAG_CONTINUOUS)])) /\
  (forall (Frame : Type) (cap : Capabilities Frame) (scan_beep : bool) (t0 : Z)
     (fs : list (Frame * Z)) (f : Frame) (now : Z) sr gs' log,
     let st := Camera.run_camera cap scan_beep (initial_cam t0) fs in
     Camera.scan_next_frame cap (Camera.scanner st) f = (sr, gs', log) ->
     Camera.sr_success sr = true -> Camera.sr_already_scanned sr = true ->
     let st' := Camera.camera_scanner_step cap scan_beep st f now in
     Camera.result_queue st' = Camera.result_queue st /\
     Camera.beeps st' = Camera.beeps st /\
     Camera.overlay_queue st' =
       Camera.overlay_queue st ++ [Camera.TextOverlay Camera.SCANNED_TAG Camera.Green]).
Proof.
  split.
  - intros Frame cap st f plate fcb log E Hok Hdup. simpl.
    unfold Continuous.scanner_step. rewrite E, Hok, Hdup.
    destruct fcb; simpl; auto.
  - intros Frame cap b t0 fs f now sr gs' log st E Hs Hdup st'.
    assert (Hinv : CameraFacts.scanner_inv (Camera.scanner st))
      by (apply run_camera_inv; exact I).
    pose proof (CameraFacts.duplicate_has_no_new_barcodes cap _ f sr gs' log Hinv E Hdup)
      as Hnew.
    subst st'. unfold Camera.camera_scanner_step. rewrite E, Hs, Hdup, Hnew.
    unfold Camera.scan_next_frame in E.
    destruct (match Camera.gs_plate (Camera.scanner st) with
              | Some p => _ | None => _ end) as [plate l].
    destruct (scan_ok plate); inversion E; subst; [| discriminate].
    simpl. auto.
Qed.

(** C7: a frame whose geometry alignment fails leaves the remembered
    plates and the result queue as they were.  In [continuous.py] it
    writes no queue at all; in [camera_scanner.py] the scanner state and
    [last_plate_time] are unchanged and the only possible output is the
    error overlay, once more than [NO_PUCK_TIME] has passed since the
    last aligned plate. *)
Theorem alignment_failure_changes_nothing :
  (forall (Frame : Type) (cap : Capabilities Frame) (st : Continuous.WorkerState)
     (f : Frame) plate fcb log,
     Continuous.scan_frame cap st f = (plate, fcb, log) -> scan_ok plate = false ->
     let st' := Continuous.scanner_step cap st f in
     Continuous.last_plate st' = Continuous.last_plate st /\
     Continuous.last_full_plate st' = Continuous.last_full_plate st /\
     Continuous.result_queue st' = Continuous.result_queue st /\
     Continuous.overlay_queue st' = Continuous.overlay_queue st /\
     Continuous.beeps st' = Continuous.beeps st) /\
  (forall (Frame : Type) (cap : Capabilities Frame) (scan_beep : bool)
     (st : Camera.CamState) (f : Frame) (now : Z) sr gs' log,
     Camera.scan_next_frame cap (Camera.scanner st) f = (sr, gs', log) ->
     Camera.sr_success sr = false ->
     let st' := Camera.camera_scanner_step cap scan_beep st f now in
     Camera.scanner st' = Camera.scanner st /\
     Camera.last_plate_time st' = Camera.last_plate_time st /\
     Camera.result_queue st' = Camera.result_queue st /\
     Camera.beeps st' = Camera.beeps st /\
     (Camera.overlay_queue st' = Camera.overlay_queue st \/
      ((Camera.NO_PUCK_TIME < now - Camera.last_plate_time st)%Z /\
       Camera.overlay_queue st' =
         Camera.overlay_queue st ++ [Camera.TextOverlay (Camera.sr_error sr) Camera.Red]))).
Proof.
  split.
  - intros Frame cap st f plate fcb log E Hok. simpl.
    unfold Continuous.scanner_step. rewrite E, Hok. simpl. auto.
  - intros Frame cap b st f now sr gs' log E Hs st'.
    destruct (scan_next_frame_failure cap _ f sr gs' log E Hs) as [-> ->].
    subst st'. unfold Camera.camera_scanner_step. rewrite E, Hs.
    destruct (Z.ltb_spec Camera.NO_PUCK_TIME (now - Camera.last_plate_time st));
      simpl; repeat split; auto.
Qed.

End WorkerFacts.

(* ------------------------------------------------------------------ *)
(** ** The capture side: load shedding and termination *)

Module CaptureFacts.
Import Capture.

(** The time stamps [ts] are at least [d] apart, in order. *)
Fixpoint spread (d : Z) (ts : list Z) : Prop :=
  match ts with
  | [] => True
  | t :: rest => Forall (fun y => (t + d <= y)%Z) rest /\ spread d rest
  end.

Lemma spread_snoc (d : Z) (ts : list Z) (x : Z) :
  spread d ts -> Forall (fun y => (y + d <= x)%Z) ts -> spread d (ts ++ [x]).
Proof.
  induction ts as [| t ts IH]; simpl; intros Hs Hf.
  - split; constructor.
  - destruct Hs as [Ht Hr]. inversion Hf; subst.
    split.
    + apply Forall_app. split; [exact Ht | constructor; [assumption | constructor]].
    + apply IH; assumption.
Qed.

Fixpoint count_between (a b : Z) (ts : list Z) : nat :=
  match ts with
  | [] => 0
  | t :: rest => (if Z.leb a t && Z.ltb t b then 1 else 0) + count_between a b rest
  end.

Lemma count_in_window_between (a T : Z) (ts : list Z) :
  count_in_window a T ts = count_between a (a + T) ts.
Proof. induction ts; simpl; congruence. Qed.

Lemma count_between_raise (a a' b : Z) (ts : list Z) :
  (a <= a')%Z -> Forall (fun y => (a' <= y)%Z) ts ->
  count_between a b ts = count_between a' b ts.
Proof.
  intros Ha Hf. induction Hf as [| y ts Hy Hf IH]; simpl; [reflexivity |].
  rewrite IH. f_equal.
  destruct (Z.leb_spec a y), (Z.leb_spec a' y); simpl; try reflexivity; lia.
Qed.

Lemma count_between_spread (d : Z) (ts : list Z) :
  (0 < d)%Z -> spread d ts ->
  forall a b, (Z.of_nat (count_between a b ts) * d <= Z.max 0 (b - a - 1 + d))%Z.
Proof.
  intros Hd. induction ts as [| t ts IH]; simpl; intros Hsp a b; [lia |].
  destruct Hsp as [Hf Hs].
  destruct (Z.leb_spec a t), (Z.ltb_spec t b); cbn [andb Nat.add];
    try (apply IH; exact Hs).
  rewrite (count_between_raise a (t + d) b ts) by (lia || exact Hf).
  specialize (IH Hs (t + d)%Z b).
  rewrite Nat2Z.inj_succ, Z.mul_succ_l.
  remember (Z.of_nat (count_between (t + d) b ts) * d)%Z as X. lia.
Qed.

Lemma count_window_ceil (d a T : Z) (ts : list Z) :
  (0 < d)%Z -> (0 <= T)%Z -> spread d ts ->
  (Z.of_nat (count_in_window a T ts) <= (T + d - 1) / d)%Z.
Proof.
  intros Hd HT Hs. rewrite count_in_window_between.
  apply Z.div_le_lower_bound; [exact Hd |].
  pose proof (count_between_spread d ts Hd Hs a (a + T)). lia.
Qed.

Section Loops.
Context {Frame : Type}.

Definition frames_in (q : list (option Frame)) : nat :=
  List.length (filter (fun x => match x with Some _ => true | None => false end) q).

(** What holds of the capture worker's state at any time. *)
Definition cap_inv (t : Z) (st : CapState (Frame := Frame)) : Prop :=
  spread INTERVAL (map enq_time (enqueues st)) /\
  Forall (fun y => (y <= last_time st)%Z) (map enq_time (enqueues st)) /\
  (last_time st <= t)%Z /\
  Forall (fun e => enq_qsize e < Q_LIMIT /\ (INTERVAL <= enq_elapsed e)%Z) (enqueues st) /\
  frames_in (task_queue st) = List.length (enqueues st).

Lemma frames_in_app (q1 q2 : list (option Frame)) :
  frames_in (q1 ++ q2) = frames_in q1 + frames_in q2.
Proof. unfold frames_in. rewrite filter_app, length_app. reflexivity. Qed.

Lemma try_enqueue_inv (t : Z) (st st' : CapState) (i : CapInput) :
  cap_inv t st -> (t <= now i)%Z -> (now i <= after_put i)%Z ->
  try_enqueue st i = Some st' -> cap_inv (after_put i) st'.
Proof.
  intros [Hs [Hle [Hlt [Hc Hn]]]] H1 H2 E. unfold try_enqueue in E.
  destruct (Nat.ltb_spec (qsize i) Q_LIMIT), (Z.leb_spec INTERVAL (now i - last_time st));
    simpl in E; try (inversion E; subst; repeat split; auto; lia).
  destruct (read i) as [fr|]; inversion E; subst; clear E.
  unfold cap_inv; simpl. rewrite map_app. simpl.
  repeat split.
  - apply spread_snoc; [exact Hs |].
    eapply Forall_impl; [| exact Hle]. simpl. intros y Hy. lia.
  - apply Forall_app. split; [| constructor; [lia | constructor]].
    eapply Forall_impl; [| exact Hle]. simpl. intros y Hy. lia.
  - lia.
  - apply Forall_app. split; [exact Hc | constructor; [split; [assumption | cbn; lia] | constructor]].
  - rewrite frames_in_app, length_app, Hn. reflexivity.
Qed.

Lemma put_sentinel_inv (t : Z) (st : CapState) :
  cap_inv t st -> cap_inv t (put_sentinel (Frame := Frame) st).
Proof.
  intros [Hs [Hle [Hlt [Hc Hn]]]]. unfold cap_inv, put_sentinel; simpl.
  rewrite frames_in_app. simpl. rewrite Hn. repeat split; auto; lia.
Qed.

Lemma capture_worker_inv (ins : list CapInput) :
  forall t st, clock_monotone t ins -> cap_inv t st ->
  exists t', cap_inv t' (state_of (capture_worker st ins)).
Proof.
  induction ins as [| i ins IH]; simpl; intros t st Hm Hi; [eauto |].
  destruct Hm as [H1 [H2 Hm]].
  destruct (kill_empty i); [| exists t; apply put_sentinel_inv; exact Hi].
  destruct (try_enqueue st i) as [st'|] eqn:E; [| exists t; exact Hi].
  pose proof (try_enqueue_inv t st st' i Hi H1 H2 E) as Hi'.
  destruct (key_exit i); [exists (after_put i); apply put_sentinel_inv; exact Hi' |].
  eapply IH; eauto.
Qed.

Lemma continuous_capture_worker_inv (ins : list CapInput) :
  forall t st, clock_monotone t ins -> cap_inv t st ->
  exists t', cap_inv t' (state_of (continuous_capture_worker st ins)).
Proof.
  induction ins as [| i ins IH]; simpl; intros t st Hm Hi; [eauto |].
  destruct Hm as [H1 [H2 Hm]].
  destruct (try_enqueue st i) as [st'|] eqn:E; [| exists t; exact Hi].
  pose proof (try_enqueue_inv t st st' i Hi H1 H2 E) as Hi'.
  destruct (key_exit i); [exists (after_put i); apply put_sentinel_inv; exact Hi' |].
  eapply IH; eauto.
Qed.

Lemma cap_inv_start (t0 : Z) : cap_inv t0 (start (Frame := Frame) t0).
Proof. unfold cap_inv, start; simpl. repeat split; auto; lia. Qed.

End Loops.

(** C5: in both capture loops every frame put on the task queue was
    accepted with [qsize() < Q_LIMIT] (= 1) and at least [INTERVAL]
    (1/10 s) elapsed since the previous put; the frames on the queue are
    exactly these; and in any window [[a, a + T)] of [T >= 0]
    milliseconds at most [ceil(T / INTERVAL)] frames were put (the
    ceiling written as an integer division). *)
Theorem capture_rate_limited :
  forall (Frame : Type) (t0 : Z) (ins : list (CapInput (Frame := Frame))),
    clock_monotone t0 ins ->
    forall o, (o = capture_worker (start t0) ins \/ o = continuous_capture_worker (start t0) ins) ->
    let st := state_of o in
    Forall (fun e => enq_qsize e < Q_LIMIT /\ (INTERVAL <= enq_elapsed e)%Z) (enqueues st) /\
    frames_in (task_queue st) = List.length (enqueues st) /\
    (forall a T, (0 <= T)%Z ->
       (Z.of_nat (count_in_window a T (map enq_time (enqueues st))) <= (T + INTERVAL - 1) / INTERVAL)%Z).
Proof.
  intros Frame t0 ins Hm o Ho st.
  assert (Hinv : exists t', cap_inv t' st).
  { subst st. destruct Ho as [-> | ->].
    - apply (capture_worker_inv ins t0); [exact Hm | apply cap_inv_start].
    - apply (continuous_capture_worker_inv ins t0); [exact Hm | apply cap_inv_start]. }
  destruct Hinv as [t' [Hs [_ [_ [Hc Hn]]]]].
  split; [exact Hc | split; [exact Hn |]].
  intros a T HT. apply count_window_ceil; [unfold INTERVAL; lia | exact HT | exact Hs].
Qed.

End CaptureFacts.

Module TerminationFacts.
Import Capture.

Section Sentinel.
Context {Frame : Type}.

Definition is_frame (x : option Frame) : bool :=
  match x with Some _ => true | None => false end.

Lemma camera_scanner_worker_frames (cap : Capabilities Frame) (b : bool)
  (clock : nat -> Z) (frames : list Frame) (rest : list (option Frame)) :
  forall k st,
    Camera.camera_scanner_worker cap b clock k st (map Some frames ++ None :: rest) =
    (Camera.run_camera cap b st (combine frames (map clock (seq k (List.length frames)))),
     rest, true).
Proof.
  induction frames as [| f frames IH]; simpl; intros k st; [reflexivity |].
  apply IH.
Qed.

(** The scan worker leaves its loop as soon as the queue holds a
    sentinel. *)
Lemma camera_scanner_worker_exits (cap : Capabilities Frame) (b : bool)
  (clock : nat -> Z) (q : list (option Frame)) :
  In None q -> forall k st, snd (Camera.camera_scanner_worker cap b clock k st q) = true.
Proof.
  induction q as [| x q IH]; simpl; intros Hin k st; [destruct Hin |].
  destruct x as [f|]; [| reflexivity].
  destruct Hin as [Hx | Hin]; [discriminate | apply IH; exact Hin].
Qed.

Lemma capture_worker_queue (ins : list (CapInput (Frame := Frame))) :
  forall st, Forall (fun x => is_frame x = true) (task_queue st) ->
  match capture_worker st ins with
  | Finished st' => exists items, task_queue st' = items ++ [None] /\
                                  Forall (fun x => is_frame x = true) items
  | Running st' | Crashed st' => Forall (fun x => is_frame x = true) (task_queue st')
  end.
Proof.
  induction ins as [| i ins IH]; simpl; intros st Hq; [exact Hq |].
  destruct (kill_empty i); [| exists (task_queue st); split; [reflexivity | exact Hq]].
  destruct (try_enqueue st i) as [st'|] eqn:E; [| exact Hq].
  assert (Hq' : Forall (fun x => is_frame x = true) (task_queue st')).
  { unfold try_enqueue in E.
    destruct (Nat.ltb _ _ && Z.leb _ _); [| inversion E; subst; exact Hq].
    destruct (read i) as [fr|]; inversion E; subst; simpl.
    apply Forall_app. split; [exact Hq | constructor; [reflexivity | constructor]]. }
  destruct (key_exit i); [| apply IH; exact Hq'].
  exists (task_queue st'). split; [reflexivity | exact Hq'].
Qed.

End Sentinel.

(** C6: the sentinel is [None], distinct from every frame [Some fr];
    the scan worker of [camera_scanner.py] stops at the first sentinel
    without processing it, having processed exactly the frames before
    it; [kill()] puts the sentinel on the task queue; and whenever the
    capture worker leaves its loop (exit key or kill signal) the last
    item it put on the task queue is the sentinel, after frames only, so
    the scan worker reading that queue exits. *)
Theorem termination_protocol :
  forall (Frame : Type),
    (forall fr : Frame, Some fr <> None) /\
    (forall (cap : Capabilities Frame) b clock k st (frames : list Frame) rest,
       Camera.camera_scanner_worker cap b clock k st (map Some frames ++ None :: rest) =
       (Camera.run_camera cap b st (combine frames (map clock (seq k (List.length frames)))),
        rest, true)) /\
    (forall kq tq : list (option Frame),
       snd (kill kq tq) = tq ++ [None] /\ fst (kill kq tq) = kq ++ [None] /\
       forall (cap : Capabilities Frame) b clock k st,
         snd (Camera.camera_scanner_worker cap b clock k st (snd (kill kq tq))) = true) /\
    (forall (t0 : Z) (ins : list (CapInput (Frame := Frame))) st',
       capture_worker (start t0) ins = Finished st' ->
       (exists items, task_queue st' = items ++ [None] /\
                      Forall (fun x => is_frame x = true) items) /\
       forall (cap : Capabilities Frame) b clock k st,
         snd (Camera.camera_scanner_worker cap b clock k st (task_queue st')) = true).
Proof.
  intros Frame. split; [discriminate |]. split.
  { intros cap b clock k st frames rest. apply camera_scanner_worker_frames. }
  split.
  - intros kq tq. repeat split.
    intros cap b clock k st. apply camera_scanner_worker_exits.
    simpl. apply in_or_app. right. left. reflexivity.
  - intros t0 ins st' E.
    pose proof (capture_worker_queue ins (start t0) (Forall_nil _)) as H.
    rewrite E in H. split; [exact H |].
    destruct H as [items [-> _]]. intros cap b clock k st.
    apply camera_scanner_worker_exits. apply in_or_app. right. left. reflexivity.
Qed.

End TerminationFacts.

(* ------------------------------------------------------------------ *)
(** ** Further properties of the code *)

Module SlotOps.
Import Slot.

Definition is_new_frame (o : op) : bool :=
  match o with OpNewFrame => true | _ => false end.

Definition is_set_barcode_some (o : op) : bool :=
  match o with OpSetBarcode (Some _) => true | _ => false end.

(** The calls that touch neither the barcode nor the empty flag. *)
Definition neutral (o : op) : bool :=
  match o with
  | OpNewFrame | OpSetBounds _ | OpSetBarcodePosition _ => true
  | _ => false
  end.

Lemma run_ops_cons (s : Slot) (o : op) (os : list op) :
  run_ops s (o :: os) = run_ops (apply_op s o) os.
Proof. reflexivity. Qed.

(** The slot number never changes and the frame counter counts the
    [new_frame] calls. *)
Theorem number_fixed_frames_counted :
  forall (os : list op) (s : Slot),
    number (run_ops s os) = number s /\
    _total_frames (run_ops s os) =
      _total_frames s + List.length (filter is_new_frame os).
Proof.
  induction os as [| o os IH]; intros s; [simpl; auto |].
  rewrite run_ops_cons. destruct (IH (apply_op s o)) as [H1 H2].
  rewrite H1, H2.
  destruct o as [| | | [b|] | |]; simpl; split; try reflexivity; lia.
Qed.

Lemma flag_without_new_frame (os : list op) :
  forall s, forallb (fun o => negb (is_new_frame o)) os = true ->
  barcode_this_frame (run_ops s os) =
    barcode_this_frame s || existsb is_set_barcode_some os.
Proof.
  induction os as [| o os IH]; intros s H; simpl in *.
  - rewrite orb_false_r. reflexivity.
  - apply andb_true_iff in H as [Ho H]. rewrite (IH _ H).
    destruct o as [| | | [b|] | |]; simpl in *;
      try discriminate; try reflexivity.
    + rewrite orb_true_r. reflexivity.
Qed.

(** After [new_frame()] the per-frame flag is set exactly when a later
    call (before the next [new_frame()]) is [set_barcode] with a barcode;
    [set_barcode(None)], [set_empty()] and [set_no_result()] leave it
    clear. *)
Theorem barcode_this_frame_since_new_frame :
  forall (s : Slot) (os : list op),
    forallb (fun o => negb (is_new_frame o)) os = true ->
    (barcode_this_frame (run_ops s (OpNewFrame :: os)) = true <->
     exists b, In (OpSetBarcode (Some b)) os).
Proof.
  intros s os H. rewrite run_ops_cons, (flag_without_new_frame os _ H). simpl.
  rewrite existsb_exists. split.
  - intros [o [Hin Ho]]. destruct o as [| | | [b|] | |]; try discriminate. eauto.
  - intros [b Hin]. exists (OpSetBarcode (Some b)). auto.
Qed.

Lemma neutral_preserves (os : list op) :
  forall s, forallb neutral os = true ->
  _barcode (run_ops s os) = _barcode s /\ _empty (run_ops s os) = _empty s.
Proof.
  induction os as [| o os IH]; intros s H; simpl in *; [auto |].
  apply andb_true_iff in H as [Ho H]. destruct (IH (apply_op s o) H) as [H1 H2].
  rewrite H1, H2. destruct o; try discriminate; simpl; auto.
Qed.

Lemma state_data_congr (s1 s2 : Slot) :
  _barcode s1 = _barcode s2 -> _empty s1 = _empty s2 ->
  state s1 = state s2 /\ barcode_data s1 = barcode_data s2 /\
  contains_barcode s1 = contains_barcode s2.
Proof.
  intros Hb He. unfold contains_barcode, state, barcode_data, barcode_and.
  rewrite Hb, He. auto.
Qed.

(** The last of [set_empty()], [set_no_result()] or [set_barcode(b)] with
    a barcode decides [state()] and [barcode_data()], whatever the slot
    held before; later [new_frame()], [set_bounds()] and
    [set_barcode_position()] calls change neither. *)
Theorem last_setter_decides_state :
  forall (s : Slot) (os : list op),
    forallb neutral os = true ->
    (state (run_ops s (OpSetEmpty :: os)) = EMPTY /\
     barcode_data (run_ops s (OpSetEmpty :: os)) = EMPTY_SLOT_SYMBOL) /\
    (state (run_ops s (OpSetNoResult :: os)) = NO_RESULT /\
     barcode_data (run_ops s (OpSetNoResult :: os)) = NOT_FOUND_SLOT_SYMBOL) /\
    (forall b,
       state (run_ops s (OpSetBarcode (Some b) :: os)) =
         (if bc_is_unreadable b then UNREADABLE
          else if bc_is_valid b then VALID else NO_RESULT) /\
       barcode_data (run_ops s (OpSetBarcode (Some b) :: os)) = bc_data b).
Proof.
  intros s os H.
  assert (K : forall s0, state (run_ops s0 os) = state s0 /\
                         barcode_data (run_ops s0 os) = barcode_data s0).
  { intros s0. destruct (neutral_preserves os s0 H) as [H1 H2].
    destruct (state_data_congr _ _ H1 H2) as [A [B _]]. auto. }
  repeat rewrite run_ops_cons.
  split; [| split].
  - destruct (K (apply_op s OpSetEmpty)) as [-> ->]. split; reflexivity.
  - destruct (K (apply_op s OpSetNoResult)) as [-> ->]. split; reflexivity.
  - intros b. rewrite run_ops_cons.
    destruct (K (apply_op s (OpSetBarcode (Some b)))) as [-> ->].
    split; [| reflexivity].
    unfold state, barcode_and; simpl.
    destruct (bc_is_unreadable b), (bc_is_valid b); reflexivity.
Qed.

(** [contains_barcode()] is true only for a non-empty slot that stores a
    barcode that is unreadable or valid, and then [barcode_data()] is that
    barcode's data. *)
Theorem contains_barcode_data :
  forall s : Slot,
    contains_barcode s = true ->
    exists b, _barcode s = Some b /\ _empty s = false /\
              barcode_data s = bc_data b /\
              (bc_is_unreadable b = true \/ bc_is_valid b = true).
Proof.
  intros [n bd pos bc e tf bf]. unfold contains_barcode, state, barcode_data, barcode_and; simpl.
  destruct e; [discriminate |].
  destruct bc as [b|]; [| discriminate].
  intros H. exists b. repeat split.
  destruct (bc_is_unreadable b); [auto |].
  destruct (bc_is_valid b); [auto | discriminate].
Qed.

End SlotOps.

Module FrequencyFacts.



(** [continuous.py] beeps at only two pitches: 10037 Hz when no slot is
    valid and 37 Hz otherwise. *)
Theorem continuous_frequency_two_values :
  forall n v : Z,
    (0 < n)%Z -> (0 <= v <= n)%Z ->
    continuous_frequency n v = Some (if Z.eqb v 0 then 10037 else 37)%Z.
Proof.
  intros n v Hn Hv. unfold continuous_frequency.
  destruct (Z.eqb_spec n 0); [lia |].
  destruct (Z.eqb_spec v 0) as [-> | Hv0].
  - rewrite Z.sub_0_r, Z.div_same by lia. reflexivity.
  - rewrite Z.div_small by lia. reflexivity.
Qed.

End FrequencyFacts.

Module ContinuousWorkerFacts.
Import Plate Continuous.






(** The loop of [scanner_worker] in [continuous.py] processes the frames
    ahead of the first [None] in order and exits on it, leaving the rest
    of the queue; without a sentinel it processes everything and blocks. *)
Theorem scanner_worker_sentinel :
  forall (Frame : Type) (cap : Capabilities Frame) (st : WorkerState)
         (fs : list Frame) (rest : list (option Frame)),
    scanner_worker cap st (map Some fs ++ None :: rest) = (run_frames cap st fs, rest, true) /\
    scanner_worker cap st (map Some fs) = (run_frames cap st fs, [], false).
Proof.
  intros Frame cap st fs rest. unfold run_frames.
  revert st. induction fs as [| f fs IH]; intros st; simpl; [auto |].
  apply IH.
Qed.

End ContinuousWorkerFacts.

Module RenderFacts.
Import Render.

(** [draw_on_image] always ends with the exit message; the only other
    text it ever draws is [SCANNED_TAG], whatever text the overlay was
    created with; and once the lifetime has passed it draws nothing but
    the exit message. *)
Theorem draw_on_image_texts :
  forall (o : Overlay) (start_time lifetime now : Z),
    (exists cmds, draw_on_image o start_time lifetime now = cmds ++ [DrawText exit_msg]) /\
    Forall (fun c => match c with
                     | DrawText t => t = SCANNED_TAG_CONTINUOUS \/ t = exit_msg
                     | _ => True end) (draw_on_image o start_time lifetime now) /\
    ((lifetime <= now - start_time)%Z -> draw_on_image o start_time lifetime now = [DrawText exit_msg]).
Proof.
  intros o t0 lt now. unfold draw_on_image. split; [eauto |]. split.
  - apply Forall_app. split; [| constructor; [right; reflexivity | constructor]].
    destruct (Z.ltb _ _); [| constructor].
    apply Forall_app.
    split; [destruct (ov_plate o); repeat constructor |
            destruct (ov_text o); repeat constructor; left; reflexivity].
  - intros H. destruct (Z.ltb_spec (now - t0) lt); [lia | reflexivity].
Qed.

(** Draining the overlay queue keeps only the last overlay of the queue
    (the previous one when the queue is empty); draining two batches one
    after the other is the same as draining them together. *)
Theorem drain_overlays_latest :
  forall (A : Type) (latest : A) (q1 q2 : list A),
    drain_overlays latest q1 = last q1 latest /\
    drain_overlays latest (q1 ++ q2) = drain_overlays (drain_overlays latest q1) q2.
Proof.
  intros A latest q1 q2. split.
  - assert (L : forall (q : list A) (x d : A), last (x :: q) d = last q x).
    { induction q as [| y q IH]; intros x d; [reflexivity |].
      change (last (y :: q) d = last (y :: q) x). rewrite !IH. reflexivity. }
    revert latest. induction q1 as [| o q IH]; intros latest; [reflexivity |].
    simpl drain_overlays. rewrite IH, L. reflexivity.
  - revert latest. induction q1 as [| o q IH]; intros latest; simpl; auto.
Qed.

End RenderFacts.

Module CaptureExtraFacts.
Import Capture.

Lemma try_enqueue_full {Frame : Type} (st : CapState (Frame := Frame)) (i : CapInput) :
  Q_LIMIT <= qsize i -> try_enqueue st i = Some st.
Proof.
  intros H. unfold try_enqueue.
  destruct (Nat.ltb_spec (qsize i) Q_LIMIT); [lia | reflexivity].
Qed.

(** When the task queue is never seen below [Q_LIMIT] (the scan worker
    never catches up), neither capture loop puts a single frame on it:
    frames are dropped, not accumulated. *)
Theorem full_queue_sheds_frames :
  forall (Frame : Type) (t0 : Z) (ins : list (CapInput (Frame := Frame))),
    Forall (fun i => Q_LIMIT <= qsize i) ins ->
    enqueues (state_of (capture_worker (start t0) ins)) = [] /\
    CaptureFacts.frames_in (task_queue (state_of (capture_worker (start t0) ins))) = 0 /\
    enqueues (state_of (continuous_capture_worker (start t0) ins)) = [] /\
    CaptureFacts.frames_in (task_queue (state_of (continuous_capture_worker (start t0) ins))) = 0.
Proof.
  intros Frame t0 ins H.
  assert (G : forall st, enqueues st = [] -> CaptureFacts.frames_in (task_queue st) = 0 ->
            (enqueues (state_of (capture_worker st ins)) = [] /\
             CaptureFacts.frames_in (task_queue (state_of (capture_worker st ins))) = 0) /\
            (enqueues (state_of (continuous_capture_worker st ins)) = [] /\
             CaptureFacts.frames_in (task_queue (state_of (continuous_capture_worker st ins))) = 0)).
  { induction H as [| i ins Hi Hins IH]; intros st He Hf; simpl; [auto |].
    rewrite (try_enqueue_full st i Hi).
    assert (Hs : enqueues (put_sentinel st) = [] /\
                 CaptureFacts.frames_in (task_queue (put_sentinel st)) = 0).
    { simpl. rewrite CaptureFacts.frames_in_app, Hf. auto. }
    destruct (IH st He Hf) as [IH1 IH2].
    destruct (kill_empty i), (key_exit i); simpl; auto. }
  destruct (G (start t0) eq_refl eq_refl) as [[A B] [C D]]. auto.
Qed.


End CaptureExtraFacts.

(* ------------------------------------------------------------------ *)
(** ** Concrete runs *)

Module Demo.
Import Slot Plate.

(** A two-slot plate type whose frames always align and whose slots
    always decode to "A". *)
Definition cap0 : Capabilities nat :=
  {| n_slots := 2; align := fun _ => true;
     region := fun _ i => ((0%Z, 0%Z), Z.of_nat i);
     decode := fun _ _ => DValid "A" |}.

Definition st1 : Continuous.WorkerState :=
  Continuous.run_frames cap0 Continuous.initial_state [1].

Definition slot0 : Slot.Slot :=
  mkSlot 0 (Some ((0%Z, 0%Z), 0%Z)) None (Some (mkBarcode "A" true false)) false 1 true.

Example first_frame_decodes_all : Continuous.decode_log st1 = [0; 1].
Proof. reflexivity. Qed.

Example later_frames_decode_nothing :
  Continuous.decode_log (Continuous.run_frames cap0 st1 [2; 3; 4]) = [0; 1].
Proof. reflexivity. Qed.

(** In [continuous.py] the second frame of the same puck is a duplicate:
    one result in total. *)
Example continuous_duplicate_reported_once :
  List.length (Continuous.result_queue (Continuous.run_frames cap0 Continuous.initial_state [1; 2; 3])) = 1.
Proof. reflexivity. Qed.

(** In [camera_scanner.py] the second frame is already scanned. *)
Example camera_second_frame_already_scanned :
  let st := Camera.run_camera cap0 true (WorkerFacts.initial_cam 0) [(1, 10%Z)] in
  Camera.sr_already_scanned
    (fst (fst (Camera.scan_next_frame cap0 (Camera.scanner st) 2))) = true /\
  List.length (Camera.result_queue (Camera.run_camera cap0 true st [(2, 20%Z); (3, 30%Z)])) = 1.
Proof. split; reflexivity. Qed.

Lemma valid_slot_never_decoded_again_witness :
  ContinuousFacts.slot_at (Continuous.last_plate st1) 0 = Some slot0 /\
  state slot0 = VALID /\
  exists new s',
    Continuous.decode_log (Continuous.run_frames cap0 st1 [2; 3]) =
      Continuous.decode_log st1 ++ new /\ ~ In 0 new /\
    ContinuousFacts.slot_at (Continuous.last_plate (Continuous.run_frames cap0 st1 [2; 3])) 0
      = Some s' /\
    state s' = VALID /\ _barcode s' = _barcode slot0.
Proof.
  split; [reflexivity |]. split; [reflexivity |].
  apply (ContinuousFacts.valid_slot_never_decoded_again cap0 st1 0 slot0 [2; 3]);
    reflexivity.
Defined.

Definition ins0 : list (Capture.CapInput (Frame := nat)) :=
  [Capture.mkCapInput true (Some 7) 0 100 101 false;
   Capture.mkCapInput true (Some 8) 0 150 150 false;
   Capture.mkCapInput true (Some 9) 0 201 202 false;
   Capture.mkCapInput false None 0 250 250 false].

Example ins0_enqueues :
  map Capture.enq_time (Capture.enqueues (Capture.state_of (Capture.capture_worker (Capture.start 0) ins0)))
  = [100%Z; 201%Z].
Proof. reflexivity. Qed.

Lemma capture_rate_limited_witness :
  Capture.clock_monotone 0 ins0 /\
  (let st := Capture.state_of (Capture.capture_worker (Capture.start 0) ins0) in
   Forall (fun e => Capture.enq_qsize e < Capture.Q_LIMIT /\
                    (Capture.INTERVAL <= Capture.enq_elapsed e)%Z) (Capture.enqueues st) /\
   CaptureFacts.frames_in (Capture.task_queue st) = List.length (Capture.enqueues st) /\
   (forall a T, (0 <= T)%Z ->
      (Z.of_nat (Capture.count_in_window a T (map Capture.enq_time (Capture.enqueues st)))
       <= (T + Capture.INTERVAL - 1) / Capture.INTERVAL)%Z)).
Proof.
  assert (Hm : Capture.clock_monotone 0 ins0) by (simpl; lia).
  split; [exact Hm |].
  apply (CaptureFacts.capture_rate_limited nat 0 ins0 Hm); left; reflexivity.
Defined.

End Demo.

Module ExtraDemo.
Import Slot.

Definition bA : Barcode := mkBarcode "A" true false.

Lemma reachable_empty_no_barcode_witness :
  let s := run_ops (init 0) [OpSetBarcode (Some bA); OpSetEmpty] in
  reachable s /\ _empty s = true /\ _barcode s = None.
Proof.
  intros s.
  assert (R : reachable s) by (exists 0, [OpSetBarcode (Some bA); OpSetEmpty]; reflexivity).
  split; [exact R | split; [reflexivity |]].
  apply (SlotFacts.reachable_empty_no_barcode s R). reflexivity.
Defined.

Lemma barcode_this_frame_since_new_frame_witness :
  let os := [OpSetBounds None; OpSetBarcode (Some bA); OpSetEmpty] in
  forallb (fun o => negb (SlotOps.is_new_frame o)) os = true /\
  (barcode_this_frame (run_ops (init 2) (OpNewFrame :: os)) = true <->
   exists b, In (OpSetBarcode (Some b)) os).
Proof.
  intros os. split; [reflexivity |].
  apply SlotOps.barcode_this_frame_since_new_frame. reflexivity.
Defined.

Lemma last_setter_decides_state_witness :
  let os := [OpNewFrame; OpSetBounds (Some ((1%Z, 2%Z), 3%Z)); OpSetBarcodePosition None] in
  let s := run_ops (init 1) [OpSetBarcode (Some bA)] in
  forallb SlotOps.neutral os = true /\
  (state (run_ops s (OpSetEmpty :: os)) = EMPTY /\
   barcode_data (run_ops s (OpSetEmpty :: os)) = EMPTY_SLOT_SYMBOL) /\
  (state (run_ops s (OpSetNoResult :: os)) = NO_RESULT /\
   barcode_data (run_ops s (OpSetNoResult :: os)) = NOT_FOUND_SLOT_SYMBOL) /\
  (forall b,
     state (run_ops s (OpSetBarcode (Some b) :: os)) =
       (if bc_is_unreadable b then UNREADABLE
        else if bc_is_valid b then VALID else NO_RESULT) /\
     barcode_data (run_ops s (OpSetBarcode (Some b) :: os)) = bc_data b).
Proof.
  intros os s. split; [reflexivity |].
  apply SlotOps.last_setter_decides_state. reflexivity.
Defined.

Lemma contains_barcode_data_witness :
  let s := set_barcode (init 0) (Some bA) in
  contains_barcode s = true /\
  exists b, _barcode s = Some b /\ _empty s = false /\
            barcode_data s = bc_data b /\
            (bc_is_unreadable b = true \/ bc_is_valid b = true).
Proof.
  intros s. split; [reflexivity |].
  apply SlotOps.contains_barcode_data. reflexivity.
Defined.


Lemma continuous_frequency_two_values_witness :
  (0 < 16)%Z /\ (0 <= 0 <= 16)%Z /\
  continuous_frequency 16 0 = Some (if Z.eqb 0 0 then 10037 else 37)%Z.
Proof.
  split; [lia | split; [lia |]].
  apply FrequencyFacts.continuous_frequency_two_values; lia.
Defined.

Definition ins_full : list (Capture.CapInput (Frame := nat)) :=
  [Capture.mkCapInput true (Some 7) 1 500 500 false;
   Capture.mkCapInput true (Some 8) 1 900 900 true].

Lemma full_queue_sheds_frames_witness :
  Forall (fun i => Capture.Q_LIMIT <= Capture.qsize i) ins_full /\
  Capture.enqueues (Capture.state_of (Capture.capture_worker (Capture.start 0) ins_full)) = [] /\
  CaptureFacts.frames_in
    (Capture.task_queue (Capture.state_of (Capture.capture_worker (Capture.start 0) ins_full))) = 0 /\
  Capture.enqueues (Capture.state_of (Capture.continuous_capture_worker (Capture.start 0) ins_full)) = [] /\
  CaptureFacts.frames_in
    (Capture.task_queue
       (Capture.state_of (Capture.continuous_capture_worker (Capture.start 0) ins_full))) = 0.
Proof.
  assert (H : Forall (fun i => Capture.Q_LIMIT <= Capture.qsize i) ins_full)
    by (repeat constructor).
  split; [exact H |].
  apply (CaptureExtraFacts.full_queue_sheds_frames nat 0 ins_full H).
Defined.


End ExtraDemo.
